(** * Sub-bass synthesizer: the audio functions of [main.py]

    A shallow embedding of [analyze_chords], [generate_sine_wave] and
    [add_sub_bass], together with the part of numpy they call
    ([np.linspace], [np.sin], [np.concatenate]), and of the handlers of
    [SubBassApp] as transitions on the state they read and write.

    Python floats are read as real numbers: a sample is an [R], [np.pi] is
    [PI] and [np.sin] is the real sine.  Rounding, overflow and NaN of the
    binary64 operations are outside this model.  Sample counts and array
    lengths are integers ([Z] and [nat]). *)

From Stdlib Require Import String Ascii DecimalString.
From Stdlib Require Import Reals Lra Lia ZArith List Bool.
Import ListNotations.

Open Scope string_scope.
Open Scope list_scope.
Open Scope R_scope.

(** ** Exceptions *)

(** The only exception the audio functions can meet is the [ValueError] of
    [np.linspace], "Number of samples, <num>, must be non-negative."; it
    carries the offending sample count. *)
Inductive exn : Type :=
| ValueError (num : Z).

Inductive result (A : Type) : Type :=
| Ok (a : A)
| Raise (e : exn).

Arguments Ok {A} a.
Arguments Raise {A} e.

Definition bind {A B : Type} (c : result A) (k : A -> result B) : result B :=
  match c with
  | Ok a => k a
  | Raise e => Raise e
  end.

Notation "x <- c ;; k" := (bind c (fun x => k))
  (at level 61, c at next level, right associativity).

Definition raises {A : Type} (c : result A) : bool :=
  match c with
  | Ok _ => false
  | Raise _ => true
  end.

(** ** Built-ins *)

(** [int(x)] on a float truncates toward zero. *)
Definition py_int (x : R) : Z :=
  if Rle_dec 0 x then Int_part x else (- Int_part (- x))%Z.


(** ** numpy *)

Module np.

Definition pi : R := PI.

(** Point [k] of [np.linspace(start, stop, n)], endpoint included (the
    default): the step is [(stop - start) / (n - 1)], the last point is set
    to [stop], and a single point is [start]. *)
Definition linspace_point (start stop : R) (n k : nat) : R :=
  if (n <=? 1)%nat then start
  else if (k =? n - 1)%nat then stop
  else INR k * ((stop - start) / INR (n - 1)) + start.

Definition linspace (start stop : R) (num : Z) : result (list R) :=
  if (num <? 0)%Z then Raise (ValueError num)
  else
    let n := Z.to_nat num in
    Ok (map (linspace_point start stop n) (seq 0 n)).

Definition sin (a : list R) : list R := map Rtrigo_def.sin a.

(** scalar * array and array * scalar *)
Definition scale (c : R) (a : list R) : list R := map (fun x => c * x) a.
Definition scaled (a : list R) (c : R) : list R := map (fun x => x * c) a.

Definition concatenate (arrays : list (list R)) : list R := concat arrays.

Definition array_empty : list R := [].

End np.

(** ** Audio processing functions *)

Record Chord : Type := {
  chord : string;
  root : R;
  duration : R
}.

Definition analyze_chords (audio_file : string) : list Chord :=
  [ {| chord := "C";  root := 65.4;  duration := 2.0 |};
    {| chord := "G";  root := 98.0;  duration := 2.0 |};
    {| chord := "Am"; root := 110.0; duration := 2.0 |};
    {| chord := "F";  root := 87.3;  duration := 2.0 |} ].

Definition default_sample_rate : R := 44100.

Definition generate_sine_wave (frequency duration sample_rate : R)
  : result (list R) :=
  t <- np.linspace 0 duration (py_int (sample_rate * duration)) ;;
  let wave := np.sin (np.scale (2 * np.pi * frequency) t) in
  Ok (np.scaled wave 0.3).

(** The loop of [add_sub_bass]: one sine wave per chord, appended to
    [sub_bass_layers]; an exception of [generate_sine_wave] leaves the loop
    and the function. *)
Fixpoint sub_bass_loop (chords : list Chord) (sub_bass_layers : list (list R))
  : result (list (list R)) :=
  match chords with
  | [] => Ok sub_bass_layers
  | c :: rest =>
      sine_wave <- generate_sine_wave (root c) (duration c) default_sample_rate ;;
      sub_bass_loop rest (sub_bass_layers ++ [sine_wave])
  end.

(** The local [combined_bass] of [add_sub_bass]. *)
Definition combined_bass (chords : list Chord) : result (list R) :=
  sub_bass_layers <- sub_bass_loop chords [] ;;
  Ok (match sub_bass_layers with
      | [] => np.array_empty
      | _ => np.concatenate sub_bass_layers
      end).

Record BassInfo : Type := {
  status : string;
  chords_detected : nat;
  bass_duration : R
}.

Definition add_sub_bass (original_file : string) (chords : list Chord)
  : result BassInfo :=
  bass <- combined_bass chords ;;
  Ok {| status := "success";
        chords_detected := length chords;
        bass_duration :=
          if (0 <? length bass)%nat then INR (length bass) / 44100 else 0 |}.

(** ** Derived notions used in the statements *)

(** Sample [k] of a tone of [n] samples: what the three lines of
    [generate_sine_wave] compute at index [k]. *)
Definition sine_sample (frequency duration : R) (n k : nat) : R :=
  Rtrigo_def.sin (2 * np.pi * frequency * np.linspace_point 0 duration n k) * 0.3.

Definition sine_samples (frequency duration : R) (n : nat) : list R :=
  map (sine_sample frequency duration n) (seq 0 n).


(** Sample count of one chord event at the renderer's fixed 44100 Hz. *)
Definition event_samples (e : Chord) : Z :=
  py_int (default_sample_rate * duration e).

Definition event_wave (e : Chord) : list R :=
  sine_samples (root e) (duration e) (Z.to_nat (event_samples e)).

Definition timeline_samples (chords : list Chord) : Z :=
  fold_right Z.add 0%Z (map event_samples chords).

(** The event is accepted by [np.linspace]. *)
Definition renders (e : Chord) : Prop := (0 <= event_samples e)%Z.

(** The grid of the spec, for comparison with [np.linspace_point]: [n] points
    of the half-open interval, [duration / n] apart. *)
Definition half_open_point (duration : R) (n k : nat) : R :=
  INR k * (duration / INR n).

Definition valid_chord (e : Chord) : Prop := 0 < root e /\ 0 < duration e.





(** ** The mix stage *)

(** Modelled from the spec: the Mix Stage.  [main.py] has no mixing code:
    [add_sub_bass] stops at the bass layer and leaves the mix as the comment
    "In production: Mix with original audio using pydub or similar".  The
    definitions below follow section 4.3 of the spec: an intensity outside
    [0, 1] fails with [InvalidParameter]; the output is as long as the longer
    buffer, the shorter one read as silence past its end; sample [i] is
    [original[i] + intensity * bass[i]], hard-clipped to [-1, 1]. *)
Inductive mix_error : Type :=
| InvalidParameter.

Definition clip (x : R) : R :=
  if Rlt_dec x (-1) then -1
  else if Rlt_dec 1 x then 1
  else x.

Definition mix_sample (original bass : list R) (intensity : R) (i : nat) : R :=
  clip (nth i original 0 + intensity * nth i bass 0).

Definition mix (original bass : list R) (intensity : R) : mix_error + list R :=
  if Rle_dec 0 intensity then
    if Rle_dec intensity 1 then
      inr (map (mix_sample original bass intensity)
               (seq 0 (Nat.max (length original) (length bass))))
    else inl InvalidParameter
  else inl InvalidParameter.

(** ** Notions used for the renderer's statistics *)


(** The phase-inverted buffer. *)
Definition inverted (b : list R) : list R := map Ropp b.

(** ** Strings and paths *)

Definition newline : string := String (Ascii.ascii_of_nat 10) EmptyString.

(** [str(n)] on a non-negative integer: its decimal digits. *)
Definition py_str (n : nat) : string :=
  NilEmpty.string_of_uint (Nat.to_uint n).

Definition starts_with_sep (b : string) : bool :=
  match b with
  | String c _ => Ascii.eqb c "/"%char
  | EmptyString => false
  end.

Fixpoint ends_with_sep (path : string) : bool :=
  match path with
  | EmptyString => false
  | String c EmptyString => Ascii.eqb c "/"%char
  | String _ rest => ends_with_sep rest
  end.

(** One round of the loop of [os.path.join] (posixpath): an absolute
    component replaces the path, otherwise it is appended, with a separator
    unless the path is empty or already ends with one. *)
Definition join_component (path b : string) : string :=
  if starts_with_sep b then b
  else if (path =? "")%string || ends_with_sep path then (path ++ b)%string
  else (path ++ "/" ++ b)%string.

Definition os_path_join (a : string) (p : list string) : string :=
  fold_left join_component p a.

(** ** The application *)

Module SubBassApp.

(** What the handlers read and write of the app object: the text of the
    status label, the [chords] attribute (absent until [analysis_complete]
    sets it), the value of the intensity slider, and the number of
    [analysis_complete] callbacks that [Clock.schedule_once] holds. *)
Record App : Type := {
  status_text : string;
  self_chords : option (list Chord);
  bass_intensity : R;
  scheduled : nat
}.

Definition set_status (self : App) (text : string) : App :=
  {| status_text := text;
     self_chords := self_chords self;
     bass_intensity := bass_intensity self;
     scheduled := scheduled self |}.

(** What the user and the clock can do to the running app. *)
Inductive Event : Type :=
| PressAnalyze
| PressGenerate
| PressSave
| TimerFires
| SlideIntensity (value : R).

Section Handlers.

(** [android.storage.primary_external_storage_path()]. *)
Variable primary_external_storage_path : string.

(** The format [:.1f] of an f-string, as a function of the number. *)
Variable format_1f : R -> string.

Definition build : App :=
  {| status_text := "Ready to analyze";
     self_chords := None;
     bass_intensity := 0.5;
     scheduled := 0 |}.

Definition analyze_song (self : App) : App :=
  {| status_text := "Analyzing chords... (this would take 5-10 seconds)";
     self_chords := self_chords self;
     bass_intensity := bass_intensity self;
     scheduled := S (scheduled self) |}.

Definition analysis_complete (self : App) : App :=
  let chords := analyze_chords "dummy.mp3" in
  {| status_text :=
       ("Detected " ++ py_str (length chords) ++ " chords!" ++ newline
          ++ String.concat ", " (map chord chords))%string;
     self_chords := Some chords;
     bass_intensity := bass_intensity self;
     scheduled := scheduled self |}.

(** The status text is set to "Generating sub-bass..." before [add_sub_bass]
    is called, so an exception leaves it there. *)
Definition generate_bass (self : App) : App * result unit :=
  match self_chords self with
  | None => (set_status self "Please analyze a song first!", Ok tt)
  | Some chords =>
      let self := set_status self "Generating sub-bass..." in
      match add_sub_bass "song.mp3" chords with
      | Raise e => (self, Raise e)
      | Ok info =>
          (set_status self
             ("Sub-bass generated!" ++ newline
                ++ "Detected: " ++ py_str (chords_detected info) ++ " chords"
                ++ newline
                ++ "Bass duration: " ++ format_1f (bass_duration info) ++ "s")%string,
           Ok tt)
      end
  end.

Definition save_audio (self : App) : App :=
  let save_path :=
    os_path_join primary_external_storage_path
                 ["Download"; "sub_bass_output.wav"] in
  set_status self ("Saved to:" ++ newline ++ save_path)%string.

(** The event loop: a button runs its handler, the clock runs one scheduled
    [analysis_complete], the slider stores its new value. *)
Definition dispatch (self : App) (ev : Event) : App * result unit :=
  match ev with
  | PressAnalyze => (analyze_song self, Ok tt)
  | PressGenerate => generate_bass self
  | PressSave => (save_audio self, Ok tt)
  | TimerFires =>
      match scheduled self with
      | O => (self, Ok tt)
      | S pending =>
          (analysis_complete
             {| status_text := status_text self;
                self_chords := self_chords self;
                bass_intensity := bass_intensity self;
                scheduled := pending |},
           Ok tt)
      end
  | SlideIntensity value =>
      ({| status_text := status_text self;
          self_chords := self_chords self;
          bass_intensity := value;
          scheduled := scheduled self |},
       Ok tt)
  end.

(** An exception that leaves a handler ends the run. *)
Fixpoint run (self : App) (events : list Event) : App * result unit :=
  match events with
  | [] => (self, Ok tt)
  | ev :: rest =>
      match dispatch self ev with
      | (self', Ok _) => run self' rest
      | (self', Raise e) => (self', Raise e)
      end
  end.

End Handlers.

Definition is_slide (ev : Event) : bool :=
  match ev with
  | SlideIntensity _ => true
  | _ => false
  end.

Definition without_slides (events : list Event) : list Event :=
  filter (fun ev => negb (is_slide ev)) events.

End SubBassApp.

(** * Properties *)

(** ** Integer conversion *)

Lemma py_int_spec (x : R) (z : Z) :
  (0 <= z)%Z -> IZR z <= x < IZR z + 1 -> py_int x = z.
Proof.
  intros Hz [Hlo Hhi]. unfold py_int.
  apply IZR_le in Hz.
  destruct (Rle_dec 0 x) as [_ | Hneg]; [| lra].
  symmetry. apply Int_part_spec. lra.
Qed.

Lemma py_int_nonneg (x : R) : -1 < x -> (0 <= py_int x)%Z.
Proof.
  intros Hx. unfold py_int.
  destruct (Rle_dec 0 x) as [Hpos | Hneg].
  - destruct (base_Int_part x) as [_ Hgt].
    assert (H : (-1 < Int_part x)%Z) by (apply lt_IZR; lra).
    lia.
  - destruct (base_Int_part (- x)) as [Hle _].
    assert (H : (Int_part (- x) < 1)%Z) by (apply lt_IZR; lra).
    lia.
Qed.

Lemma py_int_negative (x : R) : x <= -1 -> (py_int x < 0)%Z.
Proof.
  intros Hx. unfold py_int.
  destruct (Rle_dec 0 x) as [Hpos | Hneg]; [lra |].
  destruct (base_Int_part (- x)) as [_ Hgt].
  assert (H : (0 < Int_part (- x))%Z) by (apply lt_IZR; lra).
  lia.
Qed.

Lemma py_int_neg_iff (x : R) : (py_int x < 0)%Z <-> x <= -1.
Proof.
  split.
  - intros Hlt. destruct (Rle_dec x (-1)) as [H | H]; [exact H |].
    apply Rnot_le_lt, py_int_nonneg in H. lia.
  - apply py_int_negative.
Qed.



(** ** The synthesizer *)

Lemma sine_samples_length (frequency duration : R) (n : nat) :
  length (sine_samples frequency duration n) = n.
Proof. unfold sine_samples. now rewrite length_map, length_seq. Qed.

Lemma sine_samples_nth (frequency duration : R) (n k : nat) :
  (k < n)%nat ->
  nth k (sine_samples frequency duration n) 0 = sine_sample frequency duration n k.
Proof.
  intros Hk. unfold sine_samples.
  rewrite (nth_indep _ 0 (sine_sample frequency duration n 0%nat))
    by now rewrite length_map, length_seq.
  rewrite map_nth, seq_nth by exact Hk. reflexivity.
Qed.

Lemma generate_sine_wave_unfold (frequency duration sample_rate : R) :
  generate_sine_wave frequency duration sample_rate =
  let num := py_int (sample_rate * duration) in
  if (num <? 0)%Z then Raise (ValueError num)
  else Ok (sine_samples frequency duration (Z.to_nat num)).
Proof.
  unfold generate_sine_wave, np.linspace. cbv zeta.
  destruct (py_int (sample_rate * duration) <? 0)%Z; [reflexivity |].
  cbn [bind]. f_equal.
  unfold np.scaled, np.sin, np.scale, sine_samples.
  rewrite !map_map. reflexivity.
Qed.

Lemma generate_sine_wave_ok (frequency duration sample_rate : R) :
  -1 < sample_rate * duration ->
  generate_sine_wave frequency duration sample_rate =
  Ok (sine_samples frequency duration (Z.to_nat (py_int (sample_rate * duration)))).
Proof.
  intros H. rewrite generate_sine_wave_unfold. cbv zeta.
  apply py_int_nonneg in H.
  destruct (Z.ltb_spec (py_int (sample_rate * duration)) 0); [lia | reflexivity].
Qed.




(** ** The renderer *)

Lemma generate_sine_wave_event (e : Chord) :
  generate_sine_wave (root e) (duration e) default_sample_rate =
  if (event_samples e <? 0)%Z then Raise (ValueError (event_samples e))
  else Ok (event_wave e).
Proof. apply generate_sine_wave_unfold. Qed.

Lemma sub_bass_loop_ok (chords : list Chord) :
  Forall renders chords ->
  forall layers, sub_bass_loop chords layers = Ok (layers ++ map event_wave chords).
Proof.
  induction 1 as [| e rest He _ IH]; intros layers; cbn [sub_bass_loop map].
  - now rewrite app_nil_r.
  - rewrite generate_sine_wave_event.
    destruct (Z.ltb_spec (event_samples e) 0) as [Hneg | _];
      [unfold renders in He; lia |].
    cbn [bind]. rewrite IH, <- app_assoc. reflexivity.
Qed.

Lemma sub_bass_loop_raise (pre : list Chord) (c : Chord) (post : list Chord) :
  Forall renders pre ->
  ~ renders c ->
  forall layers,
    sub_bass_loop (pre ++ c :: post) layers = Raise (ValueError (event_samples c)).
Proof.
  intros Hpre Hc.
  induction Hpre as [| e rest He _ IH]; intros layers; cbn [sub_bass_loop app];
    rewrite generate_sine_wave_event.
  - destruct (Z.ltb_spec (event_samples c) 0) as [_ | Hpos];
      [reflexivity | contradiction].
  - destruct (Z.ltb_spec (event_samples e) 0) as [Hneg | _];
      [unfold renders in He; lia |].
    cbn [bind]. apply IH.
Qed.

Lemma combined_bass_ok (chords : list Chord) :
  Forall renders chords ->
  combined_bass chords = Ok (concat (map event_wave chords)).
Proof.
  intros H. unfold combined_bass.
  rewrite (sub_bass_loop_ok chords H []). cbn [bind app].
  destruct (map event_wave chords); reflexivity.
Qed.

Lemma combined_bass_raise (pre : list Chord) (c : Chord) (post : list Chord) :
  Forall renders pre ->
  ~ renders c ->
  combined_bass (pre ++ c :: post) = Raise (ValueError (event_samples c)).
Proof.
  intros Hpre Hc. unfold combined_bass.
  now rewrite (sub_bass_loop_raise pre c post Hpre Hc []).
Qed.

Lemma event_wave_length (e : Chord) :
  renders e -> Z.of_nat (length (event_wave e)) = event_samples e.
Proof.
  unfold renders, event_wave. intros H. rewrite sine_samples_length. lia.
Qed.

Lemma concat_event_waves_length (chords : list Chord) :
  Forall renders chords ->
  Z.of_nat (length (concat (map event_wave chords))) = timeline_samples chords.
Proof.
  unfold timeline_samples.
  induction 1 as [| e rest He _ IH]; cbn [map concat fold_right]; [reflexivity |].
  rewrite length_app, Nat2Z.inj_add, IH, event_wave_length by exact He.
  reflexivity.
Qed.

Lemma timeline_samples_nonneg (chords : list Chord) :
  Forall renders chords -> (0 <= timeline_samples chords)%Z.
Proof.
  unfold timeline_samples.
  induction 1 as [| e rest He _ IH]; cbn [map fold_right]; [lia |].
  unfold renders in He. lia.
Qed.

(** The first event [np.linspace] refuses, if there is one. *)
Lemma first_refused_event (chords : list Chord) :
  Forall renders chords \/
  exists pre c post,
    chords = pre ++ c :: post /\ Forall renders pre /\ ~ renders c.
Proof.
  induction chords as [| e rest IH]; [left; constructor |].
  destruct (Z_le_dec 0 (event_samples e)) as [He | He].
  - destruct IH as [IH | (pre & c & post & -> & Hpre & Hc)].
    + left. now constructor.
    + right. exists (e :: pre), c, post. repeat split; [now constructor | exact Hc].
  - right. exists [], e, rest. repeat split; [constructor | exact He].
Qed.

Lemma bass_duration_of_length (bass : list R) :
  (if (0 <? length bass)%nat then INR (length bass) / 44100 else 0) =
  IZR (Z.of_nat (length bass)) / 44100.
Proof.
  rewrite <- INR_IZR_INZ.
  destruct (Nat.ltb_spec 0 (length bass)) as [_ | H0]; [reflexivity |].
  assert (Hlen : length bass = 0%nat) by lia.
  rewrite Hlen. cbn [INR]. lra.
Qed.

Lemma add_sub_bass_ok (original_file : string) (chords : list Chord) :
  Forall renders chords ->
  add_sub_bass original_file chords =
  Ok {| status := "success";
        chords_detected := length chords;
        bass_duration := IZR (timeline_samples chords) / 44100 |}.
Proof.
  intros H. unfold add_sub_bass.
  rewrite (combined_bass_ok chords H). cbn [bind].
  now rewrite bass_duration_of_length, concat_event_waves_length.
Qed.


(** * Claims *)

(** ** Input validation of the synthesizer *)



(** ** Length of a tone *)




(** ** The sampling grid *)

Lemma sine_samples_two (frequency duration : R) :
  sine_samples frequency duration 2 =
  [Rtrigo_def.sin (2 * np.pi * frequency * 0) * 0.3;
   Rtrigo_def.sin (2 * np.pi * frequency * duration) * 0.3].
Proof.
  unfold sine_samples, sine_sample, np.linspace_point.
  cbn [seq map Nat.leb Nat.eqb Nat.sub INR].
  do 3 f_equal. lra.
Qed.

(** For every buffer of at least two samples the last sample is taken at
    [t = duration]: the grid is the closed interval. *)
Lemma generate_sine_wave_emits_endpoint
      (frequency duration sample_rate : R) (b : list R) :
  generate_sine_wave frequency duration sample_rate = Ok b ->
  (2 <= length b)%nat ->
  nth (length b - 1) b 0 = Rtrigo_def.sin (2 * np.pi * frequency * duration) * 0.3.
Proof.
  rewrite generate_sine_wave_unfold. cbv zeta.
  destruct (py_int (sample_rate * duration) <? 0)%Z; [discriminate |].
  intros [= <-]. rewrite sine_samples_length. intros Hn.
  rewrite sine_samples_nth by lia.
  unfold sine_sample, np.linspace_point.
  destruct (Nat.leb_spec (Z.to_nat (py_int (sample_rate * duration))) 1); [lia |].
  now rewrite Nat.eqb_refl.
Qed.

(** Before the last one, sample [k] is taken at [k * duration / (n - 1)]. *)
Lemma generate_sine_wave_sample
      (frequency duration sample_rate : R) (b : list R) (k : nat) :
  generate_sine_wave frequency duration sample_rate = Ok b ->
  (k + 1 < length b)%nat ->
  nth k b 0 =
  Rtrigo_def.sin
    (2 * np.pi * frequency * (INR k * (duration / INR (length b - 1)))) * 0.3.
Proof.
  rewrite generate_sine_wave_unfold. cbv zeta.
  destruct (py_int (sample_rate * duration) <? 0)%Z; [discriminate |].
  intros [= <-]. rewrite sine_samples_length. intros Hk.
  rewrite sine_samples_nth by lia.
  unfold sine_sample, np.linspace_point.
  destruct (Nat.leb_spec (Z.to_nat (py_int (sample_rate * duration))) 1); [lia |].
  destruct (Nat.eqb_spec k (Z.to_nat (py_int (sample_rate * duration)) - 1)); [lia |].
  do 2 f_equal. lra.
Qed.

(** C3 fails on the code: [generate_sine_wave(0.25, 1.0, 2)] is [[0, 0.3]],
    its second sample taken at [t = 1.0 = duration]; on the half-open grid of
    the claim the second sample is taken at [t = 0.5] and is below 0.3.  At
    the default rate the two-second tone of the first chord has 88200 samples
    and its last one is the sample at [t = 2.0], the end of the duration. *)
Theorem generate_sine_wave_closed_interval_example :
  generate_sine_wave 0.25 1.0 2 = Ok [0; 0.3] /\
  half_open_point 1.0 2 1 = 0.5 /\
  Rtrigo_def.sin (2 * np.pi * 0.25 * half_open_point 1.0 2 1) * 0.3 < 0.3 /\
  exists b,
    generate_sine_wave 65.4 2.0 default_sample_rate = Ok b /\
    Z.of_nat (length b) = 88200%Z /\
    nth (length b - 1) b 0 = Rtrigo_def.sin (2 * np.pi * 65.4 * 2.0) * 0.3.
Proof.
  split; [| split; [| split]]; cycle 3.
  - assert (Hn : py_int (default_sample_rate * 2.0) = 88200%Z)
      by (unfold default_sample_rate; apply py_int_spec; [lia | lra]).
    assert (Hok : -1 < default_sample_rate * 2.0)
      by (unfold default_sample_rate; lra).
    pose proof (generate_sine_wave_ok 65.4 2.0 default_sample_rate Hok) as Hgen.
    eexists. split; [exact Hgen |].
    assert (Hlen : Z.of_nat
                     (length (sine_samples 65.4 2.0
                                (Z.to_nat (py_int (default_sample_rate * 2.0)))))
                   = 88200%Z)
      by (rewrite sine_samples_length, Hn; lia).
    split; [exact Hlen |].
    apply (generate_sine_wave_emits_endpoint _ _ _ _ Hgen). lia.
  - rewrite generate_sine_wave_ok by lra.
    rewrite (py_int_spec _ 2) by (lia || lra).
    change (Z.to_nat 2) with 2%nat. rewrite sine_samples_two.
    replace (2 * np.pi * 0.25 * 0) with 0 by lra.
    replace (2 * np.pi * 0.25 * 1.0) with (PI / 2) by (unfold np.pi; lra).
    rewrite sin_0, sin_PI2. do 3 f_equal; lra.
  - unfold half_open_point. cbn [INR]. lra.
  - unfold half_open_point. cbn [INR].
    match goal with
    | |- Rtrigo_def.sin ?x * _ < _ =>
        replace x with (PI / 4) by (unfold np.pi; lra)
    end.
    rewrite sin_PI4.
    assert (Hsqrt : 1 < sqrt 2).
    { rewrite <- sqrt_1 at 1. apply sqrt_lt_1; lra. }
    assert (Hinv : 1 / sqrt 2 < 1).
    { apply Rmult_lt_reg_r with (sqrt 2); [lra |].
      unfold Rdiv. rewrite Rmult_assoc, Rinv_l by lra. lra. }
    lra.
Qed.

(** ** Rendering a timeline *)

Lemma valid_chord_renders (e : Chord) : valid_chord e -> renders e.
Proof.
  intros [_ Hd]. unfold renders, event_samples, default_sample_rate.
  apply py_int_nonneg. nra.
Qed.

Lemma valid_timeline_renders (chords : list Chord) :
  Forall valid_chord chords -> Forall renders chords.
Proof. intros H. eapply Forall_impl; [| exact H]. exact valid_chord_renders. Qed.


Lemma event_samples_two_seconds (e : Chord) :
  duration e = 2.0 -> event_samples e = 88200%Z.
Proof.
  intros Hd. unfold event_samples, default_sample_rate. rewrite Hd.
  apply py_int_spec; [lia | lra].
Qed.

Lemma analyze_chords_samples (audio_file : string) :
  timeline_samples (analyze_chords audio_file) = 352800%Z.
Proof.
  unfold timeline_samples, analyze_chords. cbn [map fold_right].
  rewrite !event_samples_two_seconds by reflexivity. reflexivity.
Qed.

Lemma analyze_chords_valid (audio_file : string) :
  Forall valid_chord (analyze_chords audio_file).
Proof.
  unfold analyze_chords.
  repeat constructor; cbn [root duration]; lra.
Qed.



(** C5: rendering the empty timeline raises nothing; the buffer is empty and
    the result reports success, 0 chords and a duration of 0. *)
Theorem add_sub_bass_empty_timeline (original_file : string) :
  combined_bass [] = Ok [] /\
  add_sub_bass original_file [] =
  Ok {| status := "success"; chords_detected := 0; bass_duration := 0 |} /\
  raises (add_sub_bass original_file []) = false.
Proof. repeat split. Qed.

(** ** Amplitude *)




(** ** Determinism *)



(** ** Events the synthesizer refuses *)





(** ** The original file *)

(** C10: the result of [add_sub_bass] is the same for every two values of
    [original_file]. *)
Theorem add_sub_bass_ignores_original_file
        (original_file1 original_file2 : string) (chords : list Chord) :
  add_sub_bass original_file1 chords = add_sub_bass original_file2 chords.
Proof. reflexivity. Qed.

(** ** The mix stage *)

Lemma clip_bounded (x : R) : -1 <= clip x <= 1.
Proof.
  unfold clip.
  destruct (Rlt_dec x (-1)); [lra |].
  destruct (Rlt_dec 1 x); lra.
Qed.

Lemma clip_above (x : R) : 1 <= x -> clip x = 1.
Proof.
  intros Hx. unfold clip.
  destruct (Rlt_dec x (-1)); [lra |].
  destruct (Rlt_dec 1 x); lra.
Qed.

Lemma mix_accepts (original bass : list R) (intensity : R) :
  0 <= intensity <= 1 ->
  mix original bass intensity =
  inr (map (mix_sample original bass intensity)
           (seq 0 (Nat.max (length original) (length bass)))).
Proof.
  intros [Hlo Hhi]. unfold mix.
  destruct (Rle_dec 0 intensity); [| contradiction].
  destruct (Rle_dec intensity 1); [reflexivity | contradiction].
Qed.

(** C9, on the mix stage as the spec defines it: for an intensity within
    [0, 1] the output has sample [original[i] + intensity * bass[i]] clipped
    to [-1, 1] at every index, and [mix([1.0], [1.0], 1.0)] is [[1.0]], its
    one sample clipped from 2.0. *)
Theorem mix_sums_then_clips :
  (forall original bass intensity,
      0 <= intensity <= 1 ->
      exists output,
        mix original bass intensity = inr output /\
        length output = Nat.max (length original) (length bass) /\
        forall i,
          (i < length output)%nat ->
          nth i output 0 = clip (nth i original 0 + intensity * nth i bass 0) /\
          -1 <= nth i output 0 <= 1) /\
  1.0 + 1.0 * 1.0 = 2.0 /\
  mix [1.0] [1.0] 1.0 = inr [1.0].
Proof.
  split; [| split].
  - intros original bass intensity Hi.
    eexists. split; [now apply mix_accepts |].
    rewrite length_map, length_seq. split; [reflexivity |].
    intros i Hlt.
    rewrite (nth_indep _ 0 (mix_sample original bass intensity 0%nat))
      by now rewrite length_map, length_seq.
    rewrite map_nth, seq_nth by exact Hlt.
    split; [reflexivity | apply clip_bounded].
  - lra.
  - rewrite mix_accepts by lra.
    cbn [length Nat.max seq map]. unfold mix_sample. cbn [nth].
    rewrite clip_above by lra. do 2 f_equal. lra.
Qed.

(** * Further properties of the audio functions *)

(** ** Shape of a tone *)





Lemma sine_sample_negated (frequency duration : R) (n k : nat) :
  sine_sample (- frequency) duration n k = - sine_sample frequency duration n k.
Proof.
  unfold sine_sample.
  replace (2 * np.pi * - frequency * np.linspace_point 0 duration n k)
    with (- (2 * np.pi * frequency * np.linspace_point 0 duration n k)) by lra.
  rewrite sin_neg. lra.
Qed.

(** A negative frequency is not refused: the call with [- frequency] fails
    exactly when the call with [frequency] does, with the same error, and
    otherwise returns the phase-inverted buffer, sample by sample. *)
Theorem generate_sine_wave_negated_frequency (frequency duration sample_rate : R) :
  generate_sine_wave (- frequency) duration sample_rate =
  match generate_sine_wave frequency duration sample_rate with
  | Ok b => Ok (inverted b)
  | Raise e => Raise e
  end.
Proof.
  rewrite !generate_sine_wave_unfold. cbv zeta.
  destruct (py_int (sample_rate * duration) <? 0)%Z; [reflexivity |].
  f_equal. unfold inverted, sine_samples. rewrite map_map.
  apply map_ext. intros k. apply sine_sample_negated.
Qed.



(** ** The rendered buffer *)




Lemma renders_app (first second : list Chord) :
  Forall renders first -> Forall renders second -> Forall renders (first ++ second).
Proof. intros H1 H2. apply Forall_app. now split. Qed.

(** Rendering distributes over the concatenation of timelines: the buffer of
    [first ++ second] is the buffer of [first] followed by the buffer of
    [second], and it fails with the error of [first] if that fails, else with
    the error of [second]. *)
Theorem combined_bass_app (first second : list Chord) :
  combined_bass (first ++ second) =
  (head <- combined_bass first ;;
   tail <- combined_bass second ;;
   Ok (head ++ tail)).
Proof.
  destruct (first_refused_event first) as [H1 | (pre & c & post & -> & Hpre & Hc)].
  - rewrite (combined_bass_ok first H1). cbn [bind].
    destruct (first_refused_event second)
      as [H2 | (pre & c & post & -> & Hpre & Hc)].
    + rewrite (combined_bass_ok second H2),
        (combined_bass_ok _ (renders_app _ _ H1 H2)).
      cbn [bind]. now rewrite map_app, concat_app.
    + rewrite (combined_bass_raise pre c post Hpre Hc), app_assoc.
      now rewrite (combined_bass_raise _ c post (renders_app _ _ H1 Hpre) Hc).
  - rewrite (combined_bass_raise pre c post Hpre Hc), <- app_assoc.
    cbn [app bind].
    now rewrite (combined_bass_raise pre c (post ++ second) Hpre Hc).
Qed.





(** ** Truncation and the reported duration *)









(** * Properties of the application *)

(** ** Paths *)

Lemma string_app_assoc (a b c : string) :
  ((a ++ b) ++ c)%string = (a ++ (b ++ c))%string.
Proof. induction a as [| x a IH]; cbn; [reflexivity | now rewrite IH]. Qed.

Lemma ends_with_sep_app (p : string) (c : ascii) (s : string) :
  ends_with_sep (p ++ String c s) = ends_with_sep (String c s).
Proof.
  induction p as [| x p IH]; [reflexivity |].
  rewrite <- IH. destruct p; reflexivity.
Qed.

Lemma app_nonempty (p : string) (c : ascii) (s : string) :
  ((p ++ String c s) =? "")%string = false.
Proof. destruct p; reflexivity. Qed.

Lemma save_path_shape (storage : string) :
  os_path_join storage ["Download"; "sub_bass_output.wav"] =
  if (storage =? "")%string || ends_with_sep storage
  then (storage ++ "Download/sub_bass_output.wav")%string
  else (storage ++ "/Download/sub_bass_output.wav")%string.
Proof.
  unfold os_path_join. cbn [fold_left].
  unfold join_component at 2. cbn [starts_with_sep Ascii.eqb Bool.eqb andb].
  destruct ((storage =? "")%string || ends_with_sep storage).
  - unfold join_component. cbn [starts_with_sep Ascii.eqb Bool.eqb andb].
    rewrite app_nonempty, ends_with_sep_app. cbn [orb ends_with_sep].
    cbn -[append]. now rewrite string_app_assoc.
  - unfold join_component. cbn [starts_with_sep Ascii.eqb Bool.eqb andb].
    change (storage ++ "/" ++ "Download")%string
      with (storage ++ String "/" "Download")%string.
    rewrite app_nonempty, ends_with_sep_app. cbn [orb].
    replace (ends_with_sep "/Download") with false by reflexivity.
    now rewrite string_app_assoc.
Qed.

(** ** Runs of the application *)

Lemma add_sub_bass_of_analysis :
  add_sub_bass "song.mp3" (analyze_chords "dummy.mp3") =
  Ok {| status := "success"; chords_detected := 4; bass_duration := 8.0 |}.
Proof.
  rewrite add_sub_bass_ok
    by (apply valid_timeline_renders, analyze_chords_valid).
  rewrite analyze_chords_samples. cbn [analyze_chords length].
  do 2 f_equal. lra.
Qed.

Section Runs.

Variable storage : string.
Variable format_1f : R -> string.

Let dispatch := SubBassApp.dispatch storage format_1f.
Let run := SubBassApp.run storage format_1f.

(** The text [generate_bass] shows for the chords of [analyze_chords]. *)
Let generated_text : string :=
  ("Sub-bass generated!" ++ newline
     ++ "Detected: 4 chords" ++ newline
     ++ "Bass duration: " ++ format_1f 8.0 ++ "s")%string.

(** The [chords] attribute is absent or holds the chords of
    [analyze_chords]. *)
Let analysed_or_not (app : SubBassApp.App) : Prop :=
  SubBassApp.self_chords app = None \/
  SubBassApp.self_chords app = Some (analyze_chords "dummy.mp3").

Lemma generate_bass_not_analysed (app : SubBassApp.App) :
  SubBassApp.self_chords app = None ->
  SubBassApp.generate_bass format_1f app =
  (SubBassApp.set_status app "Please analyze a song first!", Ok tt).
Proof. intros H. unfold SubBassApp.generate_bass. now rewrite H. Qed.

Lemma generate_bass_analysed (app : SubBassApp.App) :
  SubBassApp.self_chords app = Some (analyze_chords "dummy.mp3") ->
  SubBassApp.generate_bass format_1f app =
  (SubBassApp.set_status
     (SubBassApp.set_status app "Generating sub-bass...") generated_text,
   Ok tt).
Proof.
  intros H. unfold SubBassApp.generate_bass.
  rewrite H, add_sub_bass_of_analysis. reflexivity.
Qed.

Lemma dispatch_safe (app : SubBassApp.App) (ev : SubBassApp.Event) :
  analysed_or_not app ->
  exists app', dispatch app ev = (app', Ok tt) /\ analysed_or_not app'.
Proof.
  intros Hinv. unfold dispatch.
  destruct ev; cbn [SubBassApp.dispatch].
  - eexists. split; [reflexivity | exact Hinv].
  - destruct Hinv as [Hnone | Hsome].
    + rewrite (generate_bass_not_analysed app Hnone).
      eexists. split; [reflexivity | now left].
    + rewrite (generate_bass_analysed app Hsome).
      eexists. split; [reflexivity | now right].
  - eexists. split; [reflexivity | exact Hinv].
  - destruct (SubBassApp.scheduled app).
    + eexists. split; [reflexivity | exact Hinv].
    + eexists. split; [reflexivity | now right].
  - eexists. split; [reflexivity | exact Hinv].
Qed.

Lemma run_safe (events : list SubBassApp.Event) :
  forall app,
    analysed_or_not app ->
    exists app', run app events = (app', Ok tt) /\ analysed_or_not app'.
Proof.
  unfold run.
  induction events as [| ev rest IH]; intros app Hinv; cbn [SubBassApp.run].
  - exists app. now split.
  - destruct (dispatch_safe app ev Hinv) as (app1 & Hstep & Hinv1).
    unfold dispatch in Hstep. rewrite Hstep. now apply IH.
Qed.

Lemma run_app (first second : list SubBassApp.Event) :
  forall app,
    run app (first ++ second) =
    match run app first with
    | (app', Ok _) => run app' second
    | (app', Raise e) => (app', Raise e)
    end.
Proof.
  unfold run.
  induction first as [| ev rest IH]; intros app; cbn [List.app SubBassApp.run];
    [reflexivity |].
  destruct (SubBassApp.dispatch storage format_1f app ev) as [app1 [[] | e]];
    [apply IH | reflexivity].
Qed.

(** From the state [build] leaves, no sequence of button presses, timer
    callbacks and slider moves makes a handler raise, and the [chords]
    attribute is at every point either absent or the list of
    [analyze_chords]: [generate_bass] never hands [add_sub_bass] a timeline
    it refuses. *)
Theorem app_never_raises (events : list SubBassApp.Event) :
  exists app,
    SubBassApp.run storage format_1f SubBassApp.build events = (app, Ok tt) /\
    (SubBassApp.self_chords app = None \/
     SubBassApp.self_chords app = Some (analyze_chords "dummy.mp3")).
Proof. apply run_safe. now left. Qed.

Lemma run_not_analysed (events : list SubBassApp.Event) :
  ~ In SubBassApp.TimerFires events ->
  forall app,
    SubBassApp.self_chords app = None ->
    exists app', run app events = (app', Ok tt) /\ SubBassApp.self_chords app' = None.
Proof.
  unfold run.
  induction events as [| ev rest IH]; intros Hno app Hnone; cbn [SubBassApp.run].
  - exists app. now split.
  - assert (Hrest : ~ In SubBassApp.TimerFires rest)
      by (intros Hin; apply Hno; now right).
    destruct ev; cbn [SubBassApp.dispatch].
    + now apply IH.
    + rewrite (generate_bass_not_analysed app Hnone). now apply IH.
    + now apply IH.
    + exfalso. apply Hno. now left.
    + now apply IH.
Qed.

(** Pressing "Select Song & Analyze" is not enough to generate: as long as
    the clock has not run the scheduled [analysis_complete], whatever else
    was pressed, "Generate Sub Bass" only shows the request to analyze first
    and the [chords] attribute stays absent. *)
Theorem generate_before_timer_asks_for_analysis (events : list SubBassApp.Event) :
  ~ In SubBassApp.TimerFires events ->
  exists app,
    SubBassApp.run storage format_1f SubBassApp.build
                   (events ++ [SubBassApp.PressGenerate]) = (app, Ok tt) /\
    SubBassApp.status_text app = "Please analyze a song first!" /\
    SubBassApp.self_chords app = None.
Proof.
  intros Hno.
  destruct (run_not_analysed events Hno SubBassApp.build eq_refl)
    as (app1 & Hrun & Hnone).
  pose proof (run_app events [SubBassApp.PressGenerate] SubBassApp.build) as Happ.
  unfold run in Hrun, Happ. rewrite Happ, Hrun.
  cbn [SubBassApp.run SubBassApp.dispatch].
  rewrite (generate_bass_not_analysed app1 Hnone).
  eexists. split; [reflexivity |]. split; [reflexivity | exact Hnone].
Qed.

Lemma run_analysed (events : list SubBassApp.Event) :
  forall app,
    SubBassApp.self_chords app = Some (analyze_chords "dummy.mp3") ->
    exists app',
      run app events = (app', Ok tt) /\
      SubBassApp.self_chords app' = Some (analyze_chords "dummy.mp3").
Proof.
  unfold run.
  induction events as [| ev rest IH]; intros app Hsome; cbn [SubBassApp.run].
  - exists app. now split.
  - destruct ev; cbn [SubBassApp.dispatch].
    + now apply IH.
    + rewrite (generate_bass_analysed app Hsome). now apply IH.
    + now apply IH.
    + destruct (SubBassApp.scheduled app); now apply IH.
    + now apply IH.
Qed.

(** Once an analysis was requested and the clock has run its callback, the
    chords are never lost: whatever happens before and after, "Generate Sub
    Bass" then reports 4 chords and the duration of 8.0 seconds. *)
Theorem generate_after_analysis_reports (before after : list SubBassApp.Event) :
  exists app,
    SubBassApp.run storage format_1f SubBassApp.build
      (before
         ++ SubBassApp.PressAnalyze :: SubBassApp.TimerFires
         :: after ++ [SubBassApp.PressGenerate])
    = (app, Ok tt) /\
    SubBassApp.status_text app =
    ("Sub-bass generated!" ++ newline
       ++ "Detected: 4 chords" ++ newline
       ++ "Bass duration: " ++ format_1f 8.0 ++ "s")%string.
Proof.
  destruct (run_safe before SubBassApp.build (or_introl eq_refl))
    as (app1 & Hrun1 & _).
  pose proof (run_app before
                (SubBassApp.PressAnalyze :: SubBassApp.TimerFires
                   :: after ++ [SubBassApp.PressGenerate]) SubBassApp.build)
    as Happ1.
  unfold run in Hrun1, Happ1. rewrite Happ1, Hrun1.
  cbn [SubBassApp.run SubBassApp.dispatch SubBassApp.analyze_song
         SubBassApp.scheduled].
  match goal with
  | |- exists app, SubBassApp.run _ _ ?start _ = _ /\ _ =>
      destruct (run_analysed after start eq_refl) as (app2 & Hrun2 & Hsome);
      pose proof (run_app after [SubBassApp.PressGenerate] start) as Happ2
  end.
  unfold run in Hrun2, Happ2. rewrite Happ2, Hrun2.
  cbn [SubBassApp.run SubBassApp.dispatch].
  rewrite (generate_bass_analysed app2 Hsome).
  eexists. split; reflexivity.
Qed.

(** "Save to Phone" asks for nothing: after any history, even an empty one
    with nothing analysed or generated, it returns and shows "Saved to:" and
    the storage path followed by [Download/sub_bass_output.wav], with a
    separator added unless the storage path is empty or ends with one. *)
Theorem save_reports_path_after_any_history (events : list SubBassApp.Event) :
  exists app,
    SubBassApp.run storage format_1f SubBassApp.build
                   (events ++ [SubBassApp.PressSave]) = (app, Ok tt) /\
    SubBassApp.status_text app =
    ("Saved to:" ++ newline
       ++ (if (storage =? "")%string || ends_with_sep storage
           then storage ++ "Download/sub_bass_output.wav"
           else storage ++ "/Download/sub_bass_output.wav"))%string.
Proof.
  destruct (run_safe events SubBassApp.build (or_introl eq_refl))
    as (app1 & Hrun & _).
  pose proof (run_app events [SubBassApp.PressSave] SubBassApp.build) as Happ.
  unfold run in Hrun, Happ. rewrite Happ, Hrun.
  cbn [SubBassApp.run SubBassApp.dispatch].
  eexists. split; [reflexivity |].
  unfold SubBassApp.save_audio. cbn [SubBassApp.status_text SubBassApp.set_status].
  now rewrite save_path_shape.
Qed.

(** Two states that differ at most in the value of the slider. *)
Let same_but_slider (a b : SubBassApp.App) : Prop :=
  SubBassApp.status_text a = SubBassApp.status_text b /\
  SubBassApp.self_chords a = SubBassApp.self_chords b /\
  SubBassApp.scheduled a = SubBassApp.scheduled b.

Lemma dispatch_same_but_slider (a b : SubBassApp.App) (ev : SubBassApp.Event) :
  same_but_slider a b ->
  same_but_slider (fst (dispatch a ev)) (fst (dispatch b ev)) /\
  snd (dispatch a ev) = snd (dispatch b ev).
Proof.
  destruct a as [ta ca va sa], b as [tb cb vb sb].
  unfold same_but_slider, dispatch. cbn. intros (-> & -> & ->).
  destruct ev; cbn.
  - repeat split.
  - unfold SubBassApp.generate_bass. cbn.
    destruct cb as [chords |]; [| repeat split].
    destruct (add_sub_bass "song.mp3" chords); repeat split.
  - repeat split.
  - destruct sb; repeat split.
  - repeat split.
Qed.

Lemma run_same_but_slider (events : list SubBassApp.Event) :
  forall a b,
    same_but_slider a b ->
    same_but_slider (fst (run a events))
                    (fst (run b (SubBassApp.without_slides events))) /\
    snd (run a events) = snd (run b (SubBassApp.without_slides events)).
Proof.
  unfold run.
  induction events as [| ev rest IH]; intros a b Hab.
  - cbn. now split.
  - destruct (SubBassApp.is_slide ev) eqn:Hslide.
    + destruct ev; try discriminate.
      unfold SubBassApp.without_slides. cbn [filter SubBassApp.is_slide negb].
      cbn [SubBassApp.run SubBassApp.dispatch].
      apply IH. exact Hab.
    + unfold SubBassApp.without_slides. cbn [filter]. rewrite Hslide. cbn [negb].
      fold (SubBassApp.without_slides rest). cbn [SubBassApp.run].
      destruct (dispatch_same_but_slider a b ev Hab) as [Hstate Hresult].
      unfold dispatch in Hstate, Hresult.
      destruct (SubBassApp.dispatch storage format_1f a ev) as [a1 ra].
      destruct (SubBassApp.dispatch storage format_1f b ev) as [b1 rb].
      cbn [fst snd] in Hstate, Hresult. subst rb.
      destruct ra as [[] | e]; [now apply IH | now split].
Qed.

(** The "Bass Intensity" slider is never read: removing every slider move
    from a sequence of events changes neither the status text, nor the
    [chords] attribute, nor the pending callbacks, nor whether and how the
    run ends in an exception. *)
Theorem intensity_slider_has_no_effect
        (app : SubBassApp.App) (events : list SubBassApp.Event) :
  SubBassApp.status_text (fst (SubBassApp.run storage format_1f app events)) =
  SubBassApp.status_text
    (fst (SubBassApp.run storage format_1f app (SubBassApp.without_slides events))) /\
  SubBassApp.self_chords (fst (SubBassApp.run storage format_1f app events)) =
  SubBassApp.self_chords
    (fst (SubBassApp.run storage format_1f app (SubBassApp.without_slides events))) /\
  SubBassApp.scheduled (fst (SubBassApp.run storage format_1f app events)) =
  SubBassApp.scheduled
    (fst (SubBassApp.run storage format_1f app (SubBassApp.without_slides events))) /\
  snd (SubBassApp.run storage format_1f app events) =
  snd (SubBassApp.run storage format_1f app (SubBassApp.without_slides events)).
Proof.
  assert (Hrefl : same_but_slider app app) by (repeat split).
  destruct (run_same_but_slider events app app Hrefl) as [(Ht & Hc & Hs) Hr].
  repeat split; assumption.
Qed.

(** After any history, once an analysis is requested and the clock runs its
    callback, the label shows the number of chords and their names, joined
    with commas. *)
Theorem analysis_complete_lists_chords (before : list SubBassApp.Event) :
  exists app,
    SubBassApp.run storage format_1f SubBassApp.build
      (before ++ [SubBassApp.PressAnalyze; SubBassApp.TimerFires]) = (app, Ok tt) /\
    SubBassApp.status_text app =
    ("Detected 4 chords!" ++ newline ++ "C, G, Am, F")%string /\
    SubBassApp.self_chords app = Some (analyze_chords "dummy.mp3").
Proof.
  destruct (run_safe before SubBassApp.build (or_introl eq_refl))
    as (app1 & Hrun & _).
  pose proof (run_app before [SubBassApp.PressAnalyze; SubBassApp.TimerFires]
                SubBassApp.build) as Happ.
  unfold run in Hrun, Happ. rewrite Happ, Hrun.
  cbn [SubBassApp.run SubBassApp.dispatch SubBassApp.analyze_song
         SubBassApp.scheduled].
  eexists. split; [reflexivity |]. split; reflexivity.
Qed.

(** The label at rest: never the transient "Generating sub-bass...". *)
Let at_rest (app : SubBassApp.App) : Prop :=
  analysed_or_not app /\
  SubBassApp.status_text app <> "Generating sub-bass...".

Lemma dispatch_at_rest (app : SubBassApp.App) (ev : SubBassApp.Event) :
  at_rest app ->
  exists app', dispatch app ev = (app', Ok tt) /\ at_rest app'.
Proof.
  intros [Hinv Htext]. unfold dispatch, at_rest.
  destruct ev; cbn [SubBassApp.dispatch].
  - eexists. split; [reflexivity |]. split; [exact Hinv | discriminate].
  - destruct Hinv as [Hnone | Hsome].
    + rewrite (generate_bass_not_analysed app Hnone).
      eexists. split; [reflexivity |]. split; [now left | discriminate].
    + rewrite (generate_bass_analysed app Hsome).
      eexists. split; [reflexivity |]. split; [now right | discriminate].
  - eexists. split; [reflexivity |]. split; [exact Hinv | discriminate].
  - destruct (SubBassApp.scheduled app).
    + eexists. split; [reflexivity |]. now split.
    + eexists. split; [reflexivity |]. split; [now right | discriminate].
  - eexists. split; [reflexivity |]. now split.
Qed.

(** [generate_bass] sets the label to "Generating sub-bass..." and overwrites
    it before it returns: after no sequence of events does the label read
    "Generating sub-bass...". *)
Theorem generating_text_never_stays (events : list SubBassApp.Event) :
  exists app,
    SubBassApp.run storage format_1f SubBassApp.build events = (app, Ok tt) /\
    SubBassApp.status_text app <> "Generating sub-bass...".
Proof.
  assert (Hgen :
            forall evs app,
              at_rest app -> exists app', run app evs = (app', Ok tt) /\ at_rest app').
  { unfold run.
    induction evs as [| ev rest IH]; intros app Hrest; cbn [SubBassApp.run].
    - exists app. now split.
    - destruct (dispatch_at_rest app ev Hrest) as (app1 & Hstep & Hrest1).
      unfold dispatch in Hstep. rewrite Hstep. now apply IH. }
  destruct (Hgen events SubBassApp.build) as (app & Hrun & _ & Htext).
  - split; [now left | discriminate].
  - exists app. now split.
Qed.

End Runs.

Lemma generate_before_timer_asks_for_analysis_witness :
  exists app,
    SubBassApp.run "/sdcard" (fun _ => "8.0") SubBassApp.build
      ([SubBassApp.PressAnalyze; SubBassApp.PressSave] ++ [SubBassApp.PressGenerate])
    = (app, Ok tt) /\
    SubBassApp.status_text app = "Please analyze a song first!" /\
    SubBassApp.self_chords app = None.
Proof.
  apply generate_before_timer_asks_for_analysis.
  intros [H | [H | []]]; discriminate H.
Defined.
